(** * Executive sales dashboard: the query and transform layer of streamlit.py

    The script builds its tables with SQL text handed to an in-process
    engine.  Each query is embedded as the relational function it
    denotes, over lists of rows (a table is a bag of rows; groups and
    distinct values come in the order of their first row, and rows that
    an ORDER BY does not tell apart come as the sort leaves them).

    Conventions of the embedding:
    - a calendar date is a record of year, month and day; the engine's
      DATE comparison is the lexicographic one;
    - the engine's DOUBLE values are IEEE 754 binary64 values
      ([spec_float] at precision 53), added, multiplied and divided as
      the standard prescribes; a FLOAT is carried by the DOUBLE it
      widens to;
    - the engine is free in the order in which an aggregate adds its
      values: the functions below add them in table order, and the
      relation [adds_up] holds of every result the engine can reach;
    - two things belong to the engine and its reader and are
      parameters: the cast of text to FLOAT ([cast_float]; a rejected
      text aborts the query) and the type the reader detects for the
      Price column ([price_is_text]);
    - an empty Price field is NULL; the other fields of a row are never
      empty, and an aggregate over no value at all is NULL ([None]). *)

From Stdlib Require Import Ascii QArith SpecFloat.
From stdpp Require Import base option strings pretty numbers gmap sorting list.

Local Open Scope Z_scope.

(** ** Dates *)

Record date := Date { year : Z; month : Z; day : Z }.

Global Instance date_eq_dec : EqDecision date.
Proof. solve_decision. Defined.

(** [datetime.date] and the engine's DATE only hold real calendar
    months. *)
Definition valid_month (d : date) : Prop := 1 ≤ month d ≤ 12.

(** [a < b] on DATE values. *)
Definition date_ltb (a b : date) : bool :=
  (year a <? year b)
  || ((year a =? year b)
      && ((month a <? month b)
          || ((month a =? month b) && (day a <? day b)))).

Definition date_leb (a b : date) : bool := negb (date_ltb b a).

(** [DATE_TRUNC('month', d)]. *)
Definition DATE_TRUNC_month (d : date) : date :=
  {| year := year d; month := month d; day := 1 |}.

(** [DAY(d)]. *)
Definition DAY (d : date) : Z := day d.

(** ** The month names of the script *)

Definition months_list : list string :=
  ["January"; "February"; "March"; "April"; "May"; "June"; "July";
   "August"; "September"; "October"; "November"; "December"]%string.

(** Python's [l[i]]: a negative index counts from the end, an index out
    of range raises ([None]). *)
Definition py_index {A} (l : list A) (i : Z) : option A :=
  let n := Z.of_nat (length l) in
  if (0 <=? i) && (i <? n) then l !! Z.to_nat i
  else if (- n <=? i) && (i <? 0) then l !! Z.to_nat (n + i)
  else None.

(** The f-string ["{month} {current_year}"]. *)
Definition month_label (name : string) (y : Z) : string :=
  (name +:+ " " +:+ pretty y)%string.

(** [STRFTIME(d, '%B %Y')]: the full English month name, a space, the
    year.  The names are those of [months_list]; the year is written as
    Python writes [current_year], which is the text of the engine (it
    pads the year to four digits) for the years 1000 to 9999. *)
Definition STRFTIME_B_Y (d : date) : string :=
  month_label (default ""%string (months_list !! Z.to_nat (month d - 1))) (year d).

(** [STRFTIME(d, '%Y%m')::INT]. *)
Definition STRFTIME_Ym_INT (d : date) : Z := year d * 100 + month d.

(** ** Text helpers of the engine *)

(** [REPLACE(s, c, '')] for a one-character pattern [c]. *)
Fixpoint REPLACE_char (s : string) (c : ascii) : string :=
  match s with
  | EmptyString => EmptyString
  | String a s' =>
      if decide (a = c) then REPLACE_char s' c else String a (REPLACE_char s' c)
  end.

(** ** Double precision numbers *)

Definition double : Type := spec_float.

Global Instance double_eq_dec : EqDecision double.
Proof. solve_decision. Defined.

(** The double nearest to [m * 2 ^ e]. *)
Definition dbl (m e : Z) : double := binary_normalize 53 1024 m e false.

Definition fadd : double → double → double := SFadd 53 1024.
Definition fmul : double → double → double := SFmul 53 1024.
Definition fdiv : double → double → double := SFdiv 53 1024.

Definition zero : double := S754_zero false.

Definition is_finite (x : double) : bool :=
  match x with
  | S754_zero _ | S754_finite _ _ _ => true
  | S754_infinity _ | S754_nan => false
  end.

(** C's [round]: the nearest whole number, halves away from zero. *)
Definition round_away (x : double) : double :=
  match x with
  | S754_finite s m e =>
      if 0 <=? e then x
      else
        let d := 2 ^ (- e) in
        let q := Z.pos m / d in
        let n := if d <=? 2 * (Z.pos m mod d) then q + 1 else q in
        binary_normalize 53 1024 (if s then - n else n) 0 s
  | _ => x
  end.

(** [ROUND(x, 2)] on a DOUBLE: [round(x * 100) / 100], computed in
    doubles; the argument itself when that is not a finite number. *)
Definition ROUND2 (x : double) : double :=
  let r := fdiv (round_away (fmul x (dbl 100 0))) (dbl 100 0) in
  if is_finite r then r else x.

(** The real number a finite double stands for. *)
Definition exact_value (x : double) : Q :=
  match x with
  | S754_finite s m e =>
      inject_Z (if s then Z.neg m else Z.pos m) * Qpower 2 e
  | _ => 0
  end.

(** Adding up in table order, from the empty sum. *)
Definition sum_double (l : list double) : double := foldl fadd zero l.

(** The results an aggregate can reach when it adds the values of a
    list: it starts from zero, adds one value after the other, may add
    up parts of the list apart and then add the partial sums, and takes
    the values in any order. *)
Inductive adds_up : list double → double → Prop :=
  | adds_up_nil : adds_up [] zero
  | adds_up_next l v x : adds_up l v → adds_up (l ++ [x]) (fadd v x)
  | adds_up_parts l1 l2 v1 v2 :
      adds_up l1 v1 → adds_up l2 v2 → adds_up (l1 ++ l2) (fadd v1 v2)
  | adds_up_order l l' v : l ≡ₚ l' → adds_up l v → adds_up l' v.

(** The values that are not NULL. *)
Definition present {A} (l : list (option A)) : list A := omap id l.

(** SQL [SUM] over a DOUBLE column: NULLs are skipped, and the result
    is NULL when no value is left. *)
Definition SUM_double (l : list (option double)) : option double :=
  match present l with [] => None | vs => Some (sum_double vs) end.

Definition Z_sum (l : list Z) : Z := foldr Z.add 0 l.

(** SQL [SUM] over an integer column without NULLs: NULL over no row. *)
Definition SUM_Z (l : list Z) : option Z :=
  match l with [] => None | _ => Some (Z_sum l) end.

(** ** Tables *)

(** A row of Sales_Product_Combined.csv; the price is text and may
    carry thousands separators, or is empty ([None]). *)
Record raw_row := RawRow {
  raw_Order_Date : date;
  raw_City : string;
  raw_Product_Type : string;
  raw_Quantity_Ordered : Z;
  raw_Price : option string
}.

(** A row of [db_dataset], the result of [get_sales_data]. *)
Record sales_row := SalesRow {
  Order_Date : date;
  Order_Day : Z;
  Order_Month : string;
  MonthYearSort : Z;
  City : string;
  Product_Type : string;
  Quantity_Ordered : Z;
  Price : option double
}.

(** A row of the cumulative sales query. *)
Record cumulative_row := CumulativeRow {
  cum_Order_Day : Z;
  cum_Order_Month : string;
  Cumulative_Price : option double
}.

Global Instance raw_row_eq_dec : EqDecision raw_row.
Proof. solve_decision. Defined.

Global Instance sales_row_eq_dec : EqDecision sales_row.
Proof. solve_decision. Defined.

(** The columns [GROUP BY ALL] groups on that are not functions of the
    others: order date, city, product type. *)
Definition group_key : Type := date * string * string.

Definition raw_key (r : raw_row) : group_key :=
  (raw_Order_Date r, raw_City r, raw_Product_Type r).

Definition sales_key (s : sales_row) : group_key :=
  (Order_Date s, City s, Product_Type s).

(** ** get_sales_data *)

(** [WHERE "Order Date" < '{current_date}'] *)
Definition before (current_date : date) (data : list raw_row) : list raw_row :=
  filter (λ r, date_ltb (raw_Order_Date r) current_date = true) data.

(** The rows before the cutoff that fall in the group of key [k]. *)
Definition contributing (current_date : date) (data : list raw_row) (k : group_key) :
    list raw_row :=
  filter (λ r, raw_key r = k) (before current_date data).

Section Engine.

(** The engine's [text::FLOAT], widened to a DOUBLE. *)
Variable cast_float : string → option double.

(** The reader's verdict on the Price column, from all its fields:
    whether it types the column as text. *)
Variable price_is_text : list (option string) → bool.

(** [REPLACE("Price", ',', '')::FLOAT] on one row: NULL for an empty
    field ([Some None]); an error for a text the cast rejects
    ([None]). *)
Definition price_value (r : raw_row) : option (option double) :=
  match raw_Price r with
  | None => Some None
  | Some text => v ← cast_float (REPLACE_char text ","%char); Some (Some v)
  end.

(** The select list of one group. *)
Definition group_row (k : group_key) (members : list (raw_row * option double)) :
    sales_row :=
  {| Order_Date := k.1.1;
     Order_Day := DAY k.1.1;
     Order_Month := STRFTIME_B_Y k.1.1;
     MonthYearSort := STRFTIME_Ym_INT k.1.1;
     City := k.1.2;
     Product_Type := k.2;
     Quantity_Ordered := Z_sum (raw_Quantity_Ordered ∘ fst <$> members);
     Price := ROUND2 <$> SUM_double (snd <$> members) |}.

Definition members_of (k : group_key) (priced : list (raw_row * option double)) :
    list (raw_row * option double) :=
  filter (λ rp, raw_key rp.1 = k) priced.

(** The query does not bind on a file without rows (the reader then
    types every column as text, and [DAY] takes no text) nor on a file
    whose Price column is not text ([REPLACE] takes nothing else);
    otherwise every price before the cutoff is cast, and the rows are
    grouped. *)
Definition get_sales_data (current_date : date) (data : list raw_row) :
    option (list sales_row) :=
  if bool_decide (data = []) then None
  else if negb (price_is_text (raw_Price <$> data)) then None
  else
    priced ← mapM (λ r, p ← price_value r; Some (r, p)) (before current_date data);
    Some ((λ k, group_row k (members_of k priced))
            <$> remove_dups (raw_key ∘ fst <$> priced)).

(** The price of a row as the sum meets it: nothing for an empty field
    (and for a text the cast rejects, where the query stops). *)
Definition price_of (r : raw_row) : option double :=
  text ← raw_Price r; cast_float (REPLACE_char text ","%char).

(** The prices of some raw rows that are not empty, commas removed and
    cast. *)
Definition parsed_prices (rows : list raw_row) : list double := omap price_of rows.

End Engine.

(** ** The lookup queries *)

(** The synthetic first entry of the city selector. *)
Definition all_cities : string := "  All Cities".

(** [get_cities]: the union (duplicates removed) of the synthetic entry
    and the cities of [db_dataset], ordered by the engine's byte-wise
    text order.  (Every row has a city here: a NULL city, which the
    query would list last, is not a value of the [City] field.) *)
Definition get_cities (db_dataset : list sales_row) : list string :=
  merge_sort String.le (remove_dups (all_cities :: (City <$> db_dataset))).

(** [get_product_types]: [SELECT DISTINCT "Product Type"]. *)
Definition get_product_types (db_dataset : list sales_row) : list string :=
  remove_dups (Product_Type <$> db_dataset).

(** [ORDER BY "MonthYearSort"]. *)
Definition by_sort_key (a b : string * Z) : Prop := a.2 ≤ b.2.

Global Instance by_sort_key_dec : RelDecision by_sort_key.
Proof. intros a b. unfold by_sort_key. apply _. Defined.

(** [get_months]: the distinct (label, sort key) pairs, by sort key. *)
Definition get_months (db_dataset : list sales_row) : list (string * Z) :=
  merge_sort by_sort_key
    (remove_dups ((λ r, (Order_Month r, MonthYearSort r)) <$> db_dataset)).

(** ** The cumulative sales query *)

(** [ORDER BY "Order Date"]. *)
Definition by_order_date (a b : sales_row) : Prop :=
  date_leb (Order_Date a) (Order_Date b) = true.

Global Instance by_order_date_dec : RelDecision by_order_date.
Proof. intros a b. unfold by_order_date. apply _. Defined.

(** [ORDER BY "Order Day"] inside the window. *)
Definition by_order_day (a b : sales_row) : Prop := Order_Day a ≤ Order_Day b.

Global Instance by_order_day_dec : RelDecision by_order_day.
Proof. intros a b. unfold by_order_day. apply _. Defined.

(** [PARTITION BY "Order Month" ORDER BY "Order Day"]: the partition of
    a row, in the order of the window. *)
Definition window_partition (filtered_sales : list sales_row) (r : sales_row) :
    list sales_row :=
  merge_sort by_order_day (filter (λ r', Order_Month r' = Order_Month r) filtered_sales).

(** The rows the window of [r] ranges over.  No frame is written in the
    query, so the frame is the default one: from the start of the
    partition to the last peer of the current row, that is every row of
    the partition with an order day up to and including that of [r]. *)
Definition window_frame (filtered_sales : list sales_row) (r : sales_row) :
    list sales_row :=
  filter (λ r', Order_Day r' ≤ Order_Day r) (window_partition filtered_sales r).

(** [SUM("Price") OVER (PARTITION BY "Order Month" ORDER BY "Order Day")] *)
Definition window_sum (filtered_sales : list sales_row) (r : sales_row) :
    option double :=
  SUM_double (Price <$> window_frame filtered_sales r).

(** The select list of the query for one row. *)
Definition cumulative_of (filtered_sales : list sales_row) (r : sales_row) :
    cumulative_row :=
  {| cum_Order_Day := Order_Day r;
     cum_Order_Month := Order_Month r;
     Cumulative_Price := window_sum filtered_sales r |}.

Definition get_cumulative_sales (filtered_sales : list sales_row) :
    list cumulative_row :=
  cumulative_of filtered_sales <$> merge_sort by_order_date filtered_sales.

(** The prices of one month label in a grouped table that are not
    NULL, and those of its rows up to an order day. *)
Definition month_prices (grouped : list sales_row) (label : string) : list double :=
  present (Price <$> filter (λ r, Order_Month r = label) grouped).

Definition prices_through (grouped : list sales_row) (label : string) (d : Z) :
    list double :=
  present (Price <$> filter (λ r, Order_Month r = label ∧ Order_Day r ≤ d) grouped).

(** The real number the doubles of a list add up to. *)
Definition exact_total (l : list double) : Q :=
  foldr (λ x acc, exact_value x + acc)%Q 0%Q l.

(** ** The colour of each month *)

(** The dict comprehension: every month of the current year is grey. *)
Definition grey_map (current_year : Z) : gmap string string :=
  list_to_map ((λ m, (month_label m current_year, "grey"%string)) <$> months_list).

Definition color_discrete_map (CURRENT_DATE : date) : option (gmap string string) :=
  let current_year := year CURRENT_DATE in
  let current_month := month CURRENT_DATE in
  cur ← py_index months_list (current_month - 1);
  let with_red := <[month_label cur current_year := "red"%string]> (grey_map current_year) in
  if 1 <? current_month then
    prev ← py_index months_list (current_month - 2);
    Some (<[month_label prev current_year := "orange"%string]> with_red)
  else Some with_red.

(** ** The city filter *)

Definition quote : ascii := "'"%char.

(** How the engine reads a text literal, from just after its opening
    quote: a doubled quote stands for one quote character, a single
    quote ends the literal.  The result is the text denoted and what
    follows the literal; [None] when the literal never ends. *)
Fixpoint sql_literal (s : string) : option (string * string) :=
  match s with
  | EmptyString => None
  | String a s' =>
      if decide (a = quote) then
        match s' with
        | String b s'' =>
            if decide (b = quote)
            then (λ p, (String quote p.1, p.2)) <$> sql_literal s''
            else Some (EmptyString, s')
        | EmptyString => Some (EmptyString, EmptyString)
        end
      else (λ p, (String a p.1, p.2)) <$> sql_literal s'
  end.

Fixpoint blank (s : string) : bool :=
  match s with
  | EmptyString => true
  | String a s' => Ascii.is_space a && blank s'
  end.

(** No quote character in a text. *)
Fixpoint quote_free (s : string) : bool :=
  match s with
  | EmptyString => true
  | String a s' => negb (bool_decide (a = quote)) && quote_free s'
  end.

(** What the engine reads in ['{selected_city}'] at the end of the
    filter statement: the closing quote of the script is followed by a
    line break and four spaces.  [None] when the text after the first
    literal is not blank: the statement is then not the comparison of
    the city with one literal that the script means to write, and what
    the engine makes of the statement in that case (it rejects most
    such texts and runs some as another query) is not described. *)
Definition city_literal (selected_city : string) : option string :=
  match sql_literal (selected_city +:+ String quote (String "010" "    ")) with
  | Some (lit, rest) => if blank rest then Some lit else None
  | None => None
  end.

(** [filtered_sales]: the dataset itself for the synthetic entry, else
    [SELECT * FROM filtered_sales WHERE "City" = '{selected_city}']. *)
Definition filtered_sales (db_dataset : list sales_row) (selected_city : string) :
    option (list sales_row) :=
  if decide (selected_city ≠ all_cities) then
    lit ← city_literal selected_city;
    Some (filter (λ r, City r = lit) db_dataset)
  else Some db_dataset.

(** [mtd_filtered_sales]: the rows of the CURRENT_DATE's month. *)
Definition mtd_filtered_sales (filtered_sales : list sales_row) (CURRENT_DATE : date) :
    list sales_row :=
  filter (λ r, DATE_TRUNC_month (Order_Date r) = DATE_TRUNC_month CURRENT_DATE)
    filtered_sales.

(** ** The four KPIs *)

Definition kpi_sales_ytd (filtered_sales : list sales_row) : option double :=
  SUM_double (Price <$> filtered_sales).

Definition kpi_sales_qty_ytd (filtered_sales : list sales_row) : option Z :=
  SUM_Z (Quantity_Ordered <$> filtered_sales).

Definition kpi_sales_mtd (mtd_filtered_sales : list sales_row) : option double :=
  SUM_double (Price <$> mtd_filtered_sales).

Definition kpi_sales_qty_mtd (mtd_filtered_sales : list sales_row) : option Z :=
  SUM_Z (Quantity_Ordered <$> mtd_filtered_sales).

(** ** Facet titles *)

(** Python's [s.split(c)] for a one-character separator: the pieces
    between the separators, empty pieces included; never an empty
    list. *)
Fixpoint py_split (s : string) (c : ascii) : list string :=
  match s with
  | EmptyString => [EmptyString]
  | String a s' =>
      if decide (a = c) then EmptyString :: py_split s' c
      else match py_split s' c with
           | p :: ps => String a p :: ps
           | [] => [String a EmptyString]
           end
  end.

(** The facet titles of the histogram: [a.text.split("=")[-1]]. *)
Definition annotation_text (text : string) : option string :=
  py_index (py_split text "="%char) (-1).

(** The character [c] does not occur in a text. *)
Fixpoint char_free (c : ascii) (s : string) : bool :=
  match s with
  | EmptyString => true
  | String a s' => negb (bool_decide (a = c)) && char_free c s'
  end.

(** ** The engine on the sample files

    The closed examples below run the queries on small files.  Their
    prices are numerals that a FLOAT holds exactly, so the cast of such
    a text is that very number; every other text of these files is no
    numeral at all.  The reader types a Price column as text when one
    of its fields has a thousands separator, which it cannot read as a
    number; each sample file has such a field. *)

Definition CURRENT_DATE : date := Date 2019 9 15.

Definition sample_numerals : list (string * double) :=
  [ ("1000.00", dbl 1000 0);
    ("500.50", dbl 1001 (-1));
    ("20.25", dbl 81 (-2));
    ("1024.125", dbl 8193 (-3));
    ("0.125", dbl 1 (-3)) ]%string.

Definition sample_cast (text : string) : option double :=
  (list_to_map sample_numerals : gmap string double) !! text.

Definition has_separator (field : option string) : bool :=
  match field with
  | Some text => negb (char_free ","%char text)
  | None => false
  end.

Definition sample_price_is_text (fields : list (option string)) : bool :=
  existsb has_separator fields.

(** ** Sample tables *)

Definition nyc_jan6 : sales_row :=
  SalesRow (Date 2019 1 6) 6 "January 2019" 201901 "NYC" "A" 3 (Some (dbl 1001 (-1))).

Definition nyc_jan5 : sales_row :=
  SalesRow (Date 2019 1 5) 5 "January 2019" 201901 "NYC" "A" 2 (Some (dbl 1000 0)).

Definition boston_jan6 : sales_row :=
  SalesRow (Date 2019 1 6) 6 "January 2019" 201901 "Boston" "A" 1 (Some (dbl 20 0)).

Definition january_rows : list sales_row := [nyc_jan6; nyc_jan5; boston_jan6].

Definition march_then_january : list sales_row :=
  [ SalesRow (Date 2019 3 2) 2 "March 2019" 201903 "NYC" "A" 1 (Some (dbl 5 0));
    SalesRow (Date 2019 1 7) 7 "January 2019" 201901 "NYC" "A" 1 (Some (dbl 5 0)) ].

Definition april_then_december : list sales_row :=
  [ SalesRow (Date 2019 4 2) 2 "April 2019" 201904 "NYC" "A" 1 (Some (dbl 5 0));
    SalesRow (Date 2018 12 7) 7 "December 2018" 201812 "NYC" "A" 1 (Some (dbl 5 0)) ].

Definition aachen_rows : list sales_row :=
  [ SalesRow (Date 2019 1 5) 5 "January 2019" 201901 "  Aachen" "A" 1 (Some (dbl 5 0)) ].

Definition obrien : sales_row :=
  SalesRow (Date 2019 2 11) 11 "February 2019" 201902 "O'Brien" "A" 4 (Some (dbl 80 0)).

Definition obrien_rows : list sales_row := [obrien; boston_jan6].

(** The doubles nearest to one, two and three tenths, and a grouped
    table with one of them on each of three days of a month. *)
Definition one_tenth : double := dbl 7205759403792794 (-56).
Definition two_tenths : double := dbl 7205759403792794 (-55).
Definition three_tenths : double := dbl 5404319552844595 (-54).

Definition tenths_rows : list sales_row :=
  [ SalesRow (Date 2019 1 1) 1 "January 2019" 201901 "NYC" "A" 1 (Some one_tenth);
    SalesRow (Date 2019 1 2) 2 "January 2019" 201901 "NYC" "A" 1 (Some two_tenths);
    SalesRow (Date 2019 1 3) 3 "January 2019" 201901 "NYC" "A" 1 (Some three_tenths) ].


(** The scenario of the specification, with a second sale on one of the
    days and a sale on the cutoff day itself. *)
Definition scenario_rows : list raw_row :=
  [ RawRow (Date 2019 1 5) "NYC" "A" 2 (Some "1,000.00"%string);
    RawRow (Date 2019 1 6) "NYC" "A" 3 (Some "500.50"%string);
    RawRow (Date 2019 1 6) "NYC" "A" 1 (Some "20.25"%string);
    RawRow (Date 2019 9 15) "NYC" "A" 7 (Some "9,999.99"%string) ].

(** Two sales of one day in two cities, with prices in eighths. *)
Definition eighths_rows : list raw_row :=
  [ RawRow (Date 2019 1 5) "NYC" "A" 1 (Some "1,024.125"%string);
    RawRow (Date 2019 1 5) "Boston" "A" 1 (Some "0.125"%string) ].


(** The grouped table of the scenario. *)
Definition scenario_grouped : list sales_row :=
  default [] (get_sales_data sample_cast sample_price_is_text CURRENT_DATE scenario_rows).

(** The grouped table of the scenario seen on 6 January 2019. *)
Definition scenario_jan6 : list sales_row :=
  default [] (get_sales_data sample_cast sample_price_is_text (Date 2019 1 6) scenario_rows).

(** * Properties *)

(** ** Month to date *)

Lemma DATE_TRUNC_month_eq (a b : date) :
  DATE_TRUNC_month a = DATE_TRUNC_month b ↔ year a = year b ∧ month a = month b.
Proof.
  unfold DATE_TRUNC_month. split.
  - intros H. by inversion H.
  - intros [-> ->]. done.
Qed.

Lemma mtd_filtered_sales_filter (fs : list sales_row) (d : date) :
  mtd_filtered_sales fs d
    = filter (λ r, year (Order_Date r) = year d ∧ month (Order_Date r) = month d) fs.
Proof.
  unfold mtd_filtered_sales. apply list_filter_iff.
  intros r. apply DATE_TRUNC_month_eq.
Qed.

(** C7: the month-to-date table is exactly the rows of the filtered
    table (in their order, with their multiplicity) whose order date has
    the year and the month of the reference date; as a function of its
    two arguments it has no other input. *)
Theorem mtd_filtered_sales_spec (fs : list sales_row) (d : date) :
  mtd_filtered_sales fs d
    = filter (λ r, year (Order_Date r) = year d ∧ month (Order_Date r) = month d) fs
  ∧ ∀ r, r ∈ mtd_filtered_sales fs d
         ↔ r ∈ fs ∧ year (Order_Date r) = year d ∧ month (Order_Date r) = month d.
Proof.
  split; [apply mtd_filtered_sales_filter|].
  intros r. rewrite mtd_filtered_sales_filter, list_elem_of_filter. tauto.
Qed.

Lemma filter_nil_none {A} (P : A → Prop) `{!∀ x, Decision (P x)} (l : list A) :
  filter P l = [] ↔ ∀ x, x ∈ l → ¬ P x.
Proof.
  split.
  - intros E x Hx HP. by eapply filter_nil_not_elem_of.
  - induction l as [|a l IH]; [done|]. intros Hno.
    rewrite filter_cons_False by (apply Hno; left).
    apply IH. intros x Hx. apply Hno. by right.
Qed.

(** ** Sums *)

Lemma sum_double_snoc (l : list double) (x : double) :
  sum_double (l ++ [x]) = fadd (sum_double l) x.
Proof. unfold sum_double. by rewrite foldl_app. Qed.

(** Adding up in table order is one of the ways of adding up. *)
Lemma adds_up_sum_double (l : list double) : adds_up l (sum_double l).
Proof.
  induction l as [|x l IH] using rev_ind; [constructor|].
  rewrite sum_double_snoc. by constructor.
Qed.

Lemma present_nil {A} (l : list (option A)) :
  present l = [] ↔ ∀ x, x ∈ l → x = None.
Proof.
  unfold present. induction l as [|[a|] l IH]; simpl.
  - split; [|done]. intros _ x Hx. by apply elem_of_nil in Hx.
  - split; [done|]. intros H. discriminate (H (Some a)). left.
  - rewrite IH. split.
    + intros H x [->|Hx]%elem_of_cons; [done|by apply H].
    + intros H x Hx. apply H. by right.
Qed.

Lemma present_fmap {A B} (f : A → option B) (l : list A) :
  present (f <$> l) = omap f l.
Proof.
  unfold present. induction l as [|a l IH]; [done|].
  simpl. destruct (f a); [f_equal|]; exact IH.
Qed.

Lemma present_Permutation {A} (l l' : list (option A)) :
  l ≡ₚ l' → present l ≡ₚ present l'.
Proof. unfold present. by intros ->. Qed.

(** What SUM gives: nothing when every value is NULL, else a sum of
    the values that are not. *)
Lemma SUM_double_spec (l : list (option double)) :
  match SUM_double l with
  | None => present l = []
  | Some v => present l ≠ [] ∧ adds_up (present l) v
  end.
Proof.
  unfold SUM_double. destruct (present l) as [|x vs] eqn:E; [done|].
  split; [done|]. apply adds_up_sum_double.
Qed.

Lemma SUM_double_None (l : list (option double)) :
  SUM_double l = None ↔ ∀ x, x ∈ l → x = None.
Proof.
  rewrite <-present_nil. unfold SUM_double. by destruct (present l).
Qed.

Lemma SUM_double_Some (l : list (option double)) (v : double) :
  SUM_double l = Some v → adds_up (present l) v.
Proof.
  intros E. pose proof (SUM_double_spec l) as H. rewrite E in H. by destruct H.
Qed.

Lemma SUM_Z_None (l : list Z) : SUM_Z l = None ↔ l = [].
Proof. by destruct l. Qed.

(** ** KPIs *)

Lemma all_prices_null (l : list sales_row) :
  (∀ x, x ∈ Price <$> l → x = None) ↔ ∀ r, r ∈ l → Price r = None.
Proof.
  split.
  - intros H r Hr. apply H. by apply list_elem_of_fmap_2.
  - intros H x (r & -> & Hr)%list_elem_of_fmap. by apply H.
Qed.

(** C3 (as the code has it): over an empty table each of the four
    reductions is the absent value of SQL's SUM, not zero.  A quantity
    figure over a table with at least one row is the sum of the column;
    a price figure that is present is a sum of the prices that are not
    NULL.  The year-to-date quantity is absent exactly when the filtered
    table has no row and the month-to-date quantity exactly when no row
    of the filtered table lies in the month of the reference date; a
    price figure is absent exactly when no row it ranges over has a
    price. *)
Theorem kpi_empty_is_null :
  kpi_sales_ytd [] = None ∧ kpi_sales_qty_ytd [] = None
  ∧ kpi_sales_mtd [] = None ∧ kpi_sales_qty_mtd [] = None
  ∧ (∀ r t,
      kpi_sales_qty_ytd (r :: t) = Some (Z_sum (Quantity_Ordered <$> r :: t))
      ∧ kpi_sales_qty_mtd (r :: t) = Some (Z_sum (Quantity_Ordered <$> r :: t)))
  ∧ (∀ fs v,
      (kpi_sales_ytd fs = Some v → adds_up (present (Price <$> fs)) v)
      ∧ (kpi_sales_mtd fs = Some v → adds_up (present (Price <$> fs)) v))
  ∧ (∀ fs, (kpi_sales_ytd fs = None ↔ ∀ r, r ∈ fs → Price r = None)
           ∧ (kpi_sales_qty_ytd fs = None ↔ fs = []))
  ∧ (∀ fs d,
       let in_month r :=
         year (Order_Date r) = year d ∧ month (Order_Date r) = month d in
       (kpi_sales_mtd (mtd_filtered_sales fs d) = None
          ↔ ∀ r, r ∈ fs → in_month r → Price r = None)
       ∧ (kpi_sales_qty_mtd (mtd_filtered_sales fs d) = None
          ↔ ∀ r, r ∈ fs → ¬ in_month r)).
Proof.
  do 4 (split; [reflexivity|]). split; [by repeat split|]. split_and!.
  - intros fs v. split; apply SUM_double_Some.
  - intros fs. unfold kpi_sales_ytd, kpi_sales_qty_ytd.
    rewrite SUM_double_None, all_prices_null, SUM_Z_None.
    split; [done|]. split; [apply fmap_nil_inv|by intros ->].
  - intros fs d in_month.
    unfold kpi_sales_mtd, kpi_sales_qty_mtd.
    rewrite SUM_double_None, all_prices_null, SUM_Z_None, mtd_filtered_sales_filter.
    split.
    + split.
      * intros H r Hr Hin. apply H. by apply list_elem_of_filter.
      * intros H r [Hin Hr]%list_elem_of_filter. by apply H.
    + assert (filter (λ r, year (Order_Date r) = year d ∧ month (Order_Date r) = month d) fs = []
              ↔ ∀ r, r ∈ fs → ¬ in_month r) as <- by apply filter_nil_none.
      split; [apply fmap_nil_inv|by intros ->].
Qed.

(** C3 fails: a city with sales in January only, looked at in
    September, has an empty month-to-date table, and both month-to-date
    KPIs are absent instead of zero. *)
Lemma kpi_empty_not_zero :
  filtered_sales january_rows "NYC" = Some (filter (λ r, City r = "NYC"%string) january_rows)
  ∧ mtd_filtered_sales (filter (λ r, City r = "NYC"%string) january_rows) CURRENT_DATE = []
  ∧ kpi_sales_mtd (mtd_filtered_sales (filter (λ r, City r = "NYC"%string) january_rows) CURRENT_DATE)
      = None
  ∧ kpi_sales_mtd (mtd_filtered_sales (filter (λ r, City r = "NYC"%string) january_rows) CURRENT_DATE)
      ≠ Some zero
  ∧ kpi_sales_qty_mtd (mtd_filtered_sales (filter (λ r, City r = "NYC"%string) january_rows) CURRENT_DATE)
      = None
  ∧ kpi_sales_qty_mtd (mtd_filtered_sales (filter (λ r, City r = "NYC"%string) january_rows) CURRENT_DATE)
      ≠ Some 0.
Proof.
  split; [reflexivity|].
  assert (mtd_filtered_sales (filter (λ r, City r = "NYC"%string) january_rows) CURRENT_DATE = []) as E
    by reflexivity.
  rewrite E. repeat split; discriminate.
Qed.

(** ** Cumulative sales *)

Lemma filter_agree {A} (P Q : A → Prop) `{!∀ x, Decision (P x), !∀ x, Decision (Q x)}
    (l : list A) :
  (∀ x, x ∈ l → (P x ↔ Q x)) → filter P l = filter Q l.
Proof.
  induction l as [|a l IH]; [done|]. intros Hag.
  rewrite !filter_cons.
  rewrite IH by (intros x Hx; apply Hag; by right).
  pose proof (Hag a (list_elem_of_here _ _)) as Ha.
  destruct (decide (P a)), (decide (Q a)); tauto || done.
Qed.

Lemma get_cumulative_sales_elem (fs : list sales_row) (o : cumulative_row) :
  o ∈ get_cumulative_sales fs ↔ ∃ r, r ∈ fs ∧ o = cumulative_of fs r.
Proof.
  unfold get_cumulative_sales. rewrite list_elem_of_fmap.
  split; intros (r & H1 & H2).
  - exists r. split; [|done]. by rewrite merge_sort_Permutation in H2.
  - exists r. split; [done|]. by rewrite merge_sort_Permutation.
Qed.

(** The frame only depends on the month label and the day of its row. *)
Lemma window_sum_peers (fs : list sales_row) (r1 r2 : sales_row) :
  Order_Month r1 = Order_Month r2 → Order_Day r1 = Order_Day r2 →
  window_sum fs r1 = window_sum fs r2.
Proof.
  intros Hm Hd. unfold window_sum, window_frame, window_partition. by rewrite Hm, Hd.
Qed.

(** The frame of a row holds the rows of its month up to its day, each
    as often as the table does. *)
Lemma window_frame_rows (fs : list sales_row) (r : sales_row) :
  window_frame fs r
    ≡ₚ filter (λ r', Order_Month r' = Order_Month r ∧ Order_Day r' ≤ Order_Day r) fs.
Proof.
  unfold window_frame, window_partition.
  rewrite merge_sort_Permutation, list_filter_filter.
  by erewrite list_filter_iff; [|intros r'; apply and_comm].
Qed.

Lemma window_frame_prices (fs : list sales_row) (r : sales_row) :
  present (Price <$> window_frame fs r) ≡ₚ prices_through fs (Order_Month r) (Order_Day r).
Proof.
  unfold prices_through. apply present_Permutation. by rewrite window_frame_rows.
Qed.

(** The window sum of a row is absent when no row of its month up to
    its day has a price, and else a sum of the prices of these rows. *)
Lemma window_sum_spec (fs : list sales_row) (r : sales_row) :
  match window_sum fs r with
  | None => prices_through fs (Order_Month r) (Order_Day r) = []
  | Some v =>
      prices_through fs (Order_Month r) (Order_Day r) ≠ []
      ∧ adds_up (prices_through fs (Order_Month r) (Order_Day r)) v
  end.
Proof.
  pose proof (SUM_double_spec (Price <$> window_frame fs r)) as H.
  pose proof (window_frame_prices fs r) as Hp.
  unfold window_sum. destruct (SUM_double (Price <$> window_frame fs r)) as [v|].
  - destruct H as [Hne Hv]. split.
    + intros E. rewrite E in Hp. by apply Permutation_nil_r in Hp.
    + by apply (adds_up_order _ _ _ Hp).
  - rewrite H in Hp. symmetry in Hp. by apply Permutation_nil_r in Hp.
Qed.

(** C10: two rows of the cumulative output with the same month label
    and the same order day carry the same cumulative price, and that
    price is the total through the day: it is absent when no row of the
    input table with that label and an order day up to that day has a
    price, and else it is a sum of the prices of all these rows, those
    of the day itself included. *)
Theorem cumulative_equal_on_ties (fs : list sales_row) (o1 o2 : cumulative_row) :
  o1 ∈ get_cumulative_sales fs → o2 ∈ get_cumulative_sales fs →
  cum_Order_Month o1 = cum_Order_Month o2 →
  cum_Order_Day o1 = cum_Order_Day o2 →
  Cumulative_Price o1 = Cumulative_Price o2
  ∧ match Cumulative_Price o1 with
    | None => prices_through fs (cum_Order_Month o1) (cum_Order_Day o1) = []
    | Some v =>
        prices_through fs (cum_Order_Month o1) (cum_Order_Day o1) ≠ []
        ∧ adds_up (prices_through fs (cum_Order_Month o1) (cum_Order_Day o1)) v
    end.
Proof.
  rewrite !get_cumulative_sales_elem.
  intros (r1 & _ & ->) (r2 & _ & ->). simpl. intros Hm Hd.
  split; [by apply window_sum_peers|apply window_sum_spec].
Qed.

Lemma max_day_exists (l : list sales_row) :
  l ≠ [] → ∃ r, r ∈ l ∧ ∀ r', r' ∈ l → Order_Day r' ≤ Order_Day r.
Proof.
  induction l as [|a l IH]; [done|]. intros _.
  destruct l as [|b l].
  - exists a. split; [left|]. intros r' ->%list_elem_of_singleton. lia.
  - destruct IH as (m & Hm & Hmax); [done|].
    destruct (decide (Order_Day m ≤ Order_Day a)) as [Hle|Hgt].
    + exists a. split; [left|].
      intros r' [->|Hr']%elem_of_cons; [lia|]. specialize (Hmax _ Hr'). lia.
    + exists m. split; [by right|].
      intros r' [->|Hr']%elem_of_cons; [lia|]. by apply Hmax.
Qed.

(** On the last day of a month the rows up to the day are the rows of
    the month. *)
Lemma prices_through_last (fs : list sales_row) (r : sales_row) :
  (∀ r', r' ∈ fs → Order_Month r' = Order_Month r → Order_Day r' ≤ Order_Day r) →
  prices_through fs (Order_Month r) (Order_Day r) = month_prices fs (Order_Month r).
Proof.
  intros Hmax. unfold prices_through, month_prices. do 2 f_equal.
  apply filter_agree. intros r' Hr'. split; [tauto|].
  intros Hm. split; [done|]. by apply Hmax.
Qed.

(** C2 (as the code has it): in the cumulative output, a row whose
    order day is the last of its month label carries a sum of the
    month's prices of the input table: its cumulative price is absent
    when no row of the month has a price, and else it is what adding up
    the prices of the month in double precision gives, in some order of
    the additions.  Every month label of the input has such a row. *)
Theorem cumulative_last_is_month_total (fs : list sales_row) :
  (∀ o, o ∈ get_cumulative_sales fs →
        (∀ o', o' ∈ get_cumulative_sales fs →
               cum_Order_Month o' = cum_Order_Month o →
               cum_Order_Day o' ≤ cum_Order_Day o) →
        match Cumulative_Price o with
        | None => month_prices fs (cum_Order_Month o) = []
        | Some v =>
            month_prices fs (cum_Order_Month o) ≠ []
            ∧ adds_up (month_prices fs (cum_Order_Month o)) v
        end)
  ∧ (∀ label, label ∈ Order_Month <$> fs →
        ∃ o, o ∈ get_cumulative_sales fs ∧ cum_Order_Month o = label
             ∧ (∀ o', o' ∈ get_cumulative_sales fs →
                      cum_Order_Month o' = label →
                      cum_Order_Day o' ≤ cum_Order_Day o)).
Proof.
  split.
  - intros o (r & Hr & ->)%get_cumulative_sales_elem Hmax. simpl in *.
    rewrite <-prices_through_last; [apply window_sum_spec|].
    intros r' Hr' Hm.
    apply (Hmax (cumulative_of fs r')); [|done].
    apply get_cumulative_sales_elem. eauto.
  - intros label (r0 & -> & Hr0)%list_elem_of_fmap.
    destruct (max_day_exists (filter (λ r, Order_Month r = Order_Month r0) fs))
      as (m & Hm & Hmax).
    { intros E.
      assert (r0 ∈ filter (λ r, Order_Month r = Order_Month r0) fs) as Hin
        by (by apply list_elem_of_filter).
      rewrite E in Hin. by apply elem_of_nil in Hin. }
    apply list_elem_of_filter in Hm as [Hml Hmfs].
    exists (cumulative_of fs m). simpl. split_and!.
    + apply get_cumulative_sales_elem. eauto.
    + done.
    + intros o' (r' & Hr' & ->)%get_cumulative_sales_elem E. simpl in *.
      apply Hmax. by apply list_elem_of_filter.
Qed.

(** C2 fails: with prices of one, two and three tenths on three days of
    a month, the cumulative price of the last day is not the total of
    the three prices: each addition is rounded, and the result is
    0.6000000000000001.  Adding the same three prices from the last day
    back gives 0.6, so the prices of a month do not have one sum.  The
    three prices are prices of a grouped table: they are what ROUND
    gives for the single precision tenths. *)
Lemma cumulative_last_rounded :
  Cumulative_Price <$> get_cumulative_sales tenths_rows
    = [Some one_tenth; Some (dbl 5404319552844596 (-54)); Some (dbl 5404319552844596 (-53))]
  ∧ month_prices tenths_rows "January 2019" = [one_tenth; two_tenths; three_tenths]
  ∧ ¬ (exact_value (dbl 5404319552844596 (-53))
       == exact_total (month_prices tenths_rows "January 2019"))%Q
  ∧ adds_up (month_prices tenths_rows "January 2019") (dbl 5404319552844595 (-53))
  ∧ dbl 5404319552844596 (-53) ≠ dbl 5404319552844595 (-53)
  ∧ ROUND2 (dbl 13421773 (-27)) = one_tenth
  ∧ ROUND2 (dbl 13421773 (-26)) = two_tenths
  ∧ ROUND2 (dbl 10066330 (-25)) = three_tenths.
Proof.
  split; [by vm_compute|]. split; [by vm_compute|]. split_and!.
  - intros E. apply Qeq_bool_iff in E. vm_compute in E. discriminate E.
  - apply (adds_up_order [three_tenths; two_tenths; one_tenth]).
    + change (month_prices tenths_rows "January 2019")
        with [one_tenth; two_tenths; three_tenths].
      apply (bool_decide_unpack _). by vm_compute.
    + change (dbl 5404319552844595 (-53))
        with (sum_double [three_tenths; two_tenths; one_tenth]).
      apply adds_up_sum_double.
  - by vm_compute.
  - by vm_compute.
  - by vm_compute.
  - by vm_compute.
Qed.

Lemma cumulative_equal_on_ties_witness :
  cumulative_of january_rows nyc_jan6 ∈ get_cumulative_sales january_rows
  ∧ cumulative_of january_rows boston_jan6 ∈ get_cumulative_sales january_rows
  ∧ Cumulative_Price (cumulative_of january_rows nyc_jan6)
    = Cumulative_Price (cumulative_of january_rows boston_jan6)
  ∧ Cumulative_Price (cumulative_of january_rows nyc_jan6) = Some (dbl 3041 (-1))
  ∧ prices_through january_rows "January 2019" 6 = [dbl 1001 (-1); dbl 1000 0; dbl 20 0]
  ∧ adds_up (prices_through january_rows "January 2019" 6) (dbl 3041 (-1)).
Proof.
  assert (∀ r, r ∈ january_rows → cumulative_of january_rows r ∈ get_cumulative_sales january_rows) as Hin.
  { intros r Hr. apply get_cumulative_sales_elem. eauto. }
  assert (nyc_jan6 ∈ january_rows) as H1 by repeat constructor.
  assert (boston_jan6 ∈ january_rows) as H2 by repeat constructor.
  destruct (cumulative_equal_on_ties january_rows
              (cumulative_of january_rows nyc_jan6) (cumulative_of january_rows boston_jan6)
              (Hin _ H1) (Hin _ H2) eq_refl eq_refl) as [Heq Hsum].
  assert (Cumulative_Price (cumulative_of january_rows nyc_jan6) = Some (dbl 3041 (-1))) as E
    by (by vm_compute).
  rewrite E in Hsum. destruct Hsum as [_ Hsum].
  split_and!; [by apply Hin|by apply Hin|exact Heq|exact E|by vm_compute|exact Hsum].
Defined.

Lemma cumulative_last_is_month_total_witness :
  month_prices january_rows "January 2019" = [dbl 1001 (-1); dbl 1000 0; dbl 20 0]
  ∧ adds_up (month_prices january_rows "January 2019") (dbl 3041 (-1)).
Proof.
  split; [by vm_compute|].
  pose proof (proj1 (cumulative_last_is_month_total january_rows)
                (cumulative_of january_rows nyc_jan6)) as H.
  assert (Cumulative_Price (cumulative_of january_rows nyc_jan6) = Some (dbl 3041 (-1))) as E
    by (by vm_compute).
  rewrite E in H. apply H.
  - apply get_cumulative_sales_elem. exists nyc_jan6.
    split; [repeat constructor|done].
  - intros o' (r' & Hr' & ->)%get_cumulative_sales_elem _.
    unfold january_rows in Hr'.
    apply elem_of_cons in Hr' as [->|Hr']; [simpl; lia|].
    apply elem_of_cons in Hr' as [->|Hr']; [simpl; lia|].
    apply list_elem_of_singleton in Hr' as ->. simpl; lia.
Defined.

(** ** Month list *)

Global Instance by_sort_key_total : Total by_sort_key.
Proof. intros a b. unfold by_sort_key. lia. Qed.

Global Instance by_sort_key_trans : Transitive by_sort_key.
Proof. intros a b c. unfold by_sort_key. lia. Qed.

(** C8: the month list is in ascending order of the numeric sort key
    (any entry is at most every later one), holds each distinct
    (label, key) pair of the dataset once, and for March 2019 before
    January 2019 in the data gives January first; the order is not the
    one of the labels, as April 2019 after December 2018 shows. *)
Theorem get_months_by_sort_key :
  (∀ db : list sales_row,
      StronglySorted (λ a b : string * Z, a.2 ≤ b.2) (get_months db)
      ∧ NoDup (get_months db)
      ∧ ∀ p, p ∈ get_months db ↔ ∃ r, r ∈ db ∧ p = (Order_Month r, MonthYearSort r))
  ∧ fst <$> get_months march_then_january = ["January 2019"; "March 2019"]%string
  ∧ fst <$> get_months april_then_december = ["December 2018"; "April 2019"]%string.
Proof.
  split; [|split; reflexivity].
  intros db. unfold get_months. split_and!.
  - apply (StronglySorted_merge_sort by_sort_key).
  - rewrite merge_sort_Permutation. apply NoDup_remove_dups.
  - intros p. rewrite merge_sort_Permutation, elem_of_remove_dups, list_elem_of_fmap.
    split; intros (r & H1 & H2); eauto.
Qed.

(** ** City list *)

Lemma get_cities_elem (db : list sales_row) (c : string) :
  c ∈ get_cities db ↔ c = all_cities ∨ c ∈ City <$> db.
Proof.
  unfold get_cities.
  by rewrite merge_sort_Permutation, elem_of_remove_dups, elem_of_cons.
Qed.

Lemma sorted_nodup_strict (l : list string) :
  NoDup l → StronglySorted String.le l → StronglySorted (strict String.le) l.
Proof.
  intros Hnd Hs. induction Hs as [|c l Hs IH Hall]; [constructor|].
  pose proof (NoDup_cons_1_1 _ _ Hnd) as Hc.
  pose proof (NoDup_cons_1_2 _ _ Hnd) as Hnd'.
  constructor; [by apply IH|].
  apply Forall_forall. intros x Hx. rewrite Forall_forall in Hall.
  split; [by apply Hall|].
  intros Hxc. apply Hc.
  assert (c = x) as -> by (apply (anti_symm String.le); [by apply Hall|done]). done.
Qed.

Lemma get_cities_sorted (db : list sales_row) :
  StronglySorted (strict String.le) (get_cities db).
Proof.
  apply sorted_nodup_strict.
  - unfold get_cities. rewrite merge_sort_Permutation. apply NoDup_remove_dups.
  - apply (StronglySorted_merge_sort String.le).
Qed.

(** The city list is the strictly ascending list of the distinct values
    among the synthetic entry and the cities of the data.  When every
    city of the data sorts strictly after the synthetic entry, the list
    is the synthetic entry followed by the distinct cities in strictly
    ascending order, and the synthetic entry equals no city of the
    data. *)
Lemma get_cities_ascending (db : list sales_row) :
  StronglySorted (strict String.le) (get_cities db)
  ∧ (∀ c, c ∈ get_cities db ↔ c = all_cities ∨ c ∈ City <$> db)
  ∧ ((∀ c, c ∈ City <$> db → strict String.le all_cities c) →
     get_cities db = all_cities :: merge_sort String.le (remove_dups (City <$> db))
     ∧ StronglySorted (strict String.le) (merge_sort String.le (remove_dups (City <$> db)))
     ∧ (∀ c, c ∈ merge_sort String.le (remove_dups (City <$> db)) ↔ c ∈ City <$> db)
     ∧ all_cities ∉ City <$> db).
Proof.
  split; [apply get_cities_sorted|]. split; [apply get_cities_elem|].
  intros Hafter.
  assert (all_cities ∉ City <$> db) as Hnot.
  { intros Hin. destruct (Hafter _ Hin) as [_ Hirr]. by apply Hirr. }
  assert (get_cities db = all_cities :: merge_sort String.le (remove_dups (City <$> db))) as E.
  { apply (Sorted_unique String.le).
    - apply (Sorted_merge_sort String.le).
    - constructor; [apply (Sorted_merge_sort String.le)|].
      assert (Forall (String.le all_cities) (merge_sort String.le (remove_dups (City <$> db)))) as Hall.
      { apply Forall_forall. intros x.
        rewrite merge_sort_Permutation, elem_of_remove_dups. intros Hx.
        by destruct (Hafter _ Hx). }
      destruct Hall; constructor; done.
    - unfold get_cities. rewrite !merge_sort_Permutation. simpl.
      by destruct (decide_rel elem_of all_cities (City <$> db)). }
  split; [exact E|]. split_and!.
  - pose proof (get_cities_sorted db) as Hs. rewrite E in Hs.
    by apply StronglySorted_inv in Hs as [Hs _].
  - intros c. by rewrite merge_sort_Permutation, elem_of_remove_dups.
  - exact Hnot.
Qed.

(** C6, at a city written with two leading blanks: the dataset has one
    row, of the city "  Aachen"; the query puts that city before the
    synthetic entry, which its own description places at the top of the
    list, so the selector opens on the city and not on all cities. *)
Theorem get_cities_sentinel_not_first :
  get_cities aachen_rows = ["  Aachen"; "  All Cities"]%string
  ∧ head (get_cities aachen_rows) = Some "  Aachen"%string
  ∧ head (get_cities aachen_rows) ≠ Some all_cities.
Proof. split; [reflexivity|]. split; [reflexivity|]. vm_compute. discriminate. Qed.

(** ** Month colours *)

Lemma months_list_NoDup : NoDup months_list.
Proof. apply (bool_decide_unpack (NoDup months_list)). by vm_compute. Qed.

(** A label determines its month name and its year. *)
Lemma month_label_inj (n1 n2 : string) (y1 y2 : Z) :
  n1 ∈ months_list → n2 ∈ months_list →
  month_label n1 y1 = month_label n2 y2 → n1 = n2 ∧ y1 = y2.
Proof.
  unfold months_list, month_label. intros H1 H2.
  repeat (apply elem_of_cons in H1 as [->|H1]);
    try (by apply elem_of_nil in H1);
    repeat (apply elem_of_cons in H2 as [->|H2]);
    try (by apply elem_of_nil in H2);
    intros E; cbv beta iota delta [String.append] in E; try discriminate E;
    (split; [done|]); apply (inj pretty); congruence.
Qed.

Lemma month_name_valid (m : Z) :
  1 ≤ m ≤ 12 → ∃ n, months_list !! Z.to_nat (m - 1) = Some n ∧ n ∈ months_list.
Proof.
  intros Hm.
  destruct (lookup_lt_is_Some_2 months_list (Z.to_nat (m - 1))) as [n Hn].
  { simpl. lia. }
  exists n. split; [done|]. by eapply list_elem_of_lookup_2.
Qed.

Lemma py_index_months (m : Z) :
  1 ≤ m ≤ 12 → py_index months_list (m - 1) = months_list !! Z.to_nat (m - 1).
Proof.
  intros Hm. unfold py_index.
  replace (Z.of_nat (length months_list)) with 12 by reflexivity.
  destruct (0 <=? m - 1) eqn:E1; [|lia].
  destruct (m - 1 <? 12) eqn:E2; [done|lia].
Qed.

Local Arguments grey_map : simpl never.

Lemma grey_map_lookup (y : Z) (n : string) (y' : Z) :
  n ∈ months_list →
  grey_map y !! month_label n y' = if decide (y' = y) then Some "grey"%string else None.
Proof.
  intros Hn. unfold grey_map. case_decide as Hy.
  - subst y'. apply elem_of_list_to_map_1'.
    + intros c (n' & [= _ ->] & _)%list_elem_of_fmap. done.
    + apply list_elem_of_fmap. eauto.
  - apply not_elem_of_list_to_map_1.
    rewrite <-list_fmap_compose.
    intros (n' & E & Hn')%list_elem_of_fmap. simpl in E.
    apply month_label_inj in E as [_ ?]; done.
Qed.

(** C4 (as the code has it): for a reference date and the label of any
    month that can occur in the data, the colour map gives no colour at
    all when the label's year is not the reference year; within the
    reference year it gives red to the reference month, orange to the
    month just before it in the same year, and grey to every other
    month.  In January no month is orange. *)
Theorem color_discrete_map_spec (ref d : date) :
  valid_month ref → valid_month d →
  ∃ m, color_discrete_map ref = Some m
       ∧ m !! STRFTIME_B_Y d
         = if decide (year d = year ref) then
             if decide (month d = month ref) then Some "red"%string
             else if decide (month d = month ref - 1) then Some "orange"%string
             else Some "grey"%string
           else None.
Proof.
  unfold valid_month. intros Href Hd.
  destruct (month_name_valid (month ref) Href) as (cur & Hcur & Hcur_in).
  destruct (month_name_valid (month d) Hd) as (nd & Hnd & Hnd_in).
  unfold color_discrete_map, STRFTIME_B_Y.
  rewrite py_index_months, Hcur, Hnd by done. simpl.
  assert (∀ n i, months_list !! Z.to_nat (i - 1) = Some n → 1 ≤ i ≤ 12 →
            n = nd ↔ i = month d) as Hname.
  { intros n i Hn Hi. split.
    - intros ->. assert (Z.to_nat (i - 1) = Z.to_nat (month d - 1)) as E
        by (eapply NoDup_lookup; eauto using months_list_NoDup). lia.
    - intros ->. congruence. }
  assert (∀ n i, months_list !! Z.to_nat (i - 1) = Some n → 1 ≤ i ≤ 12 →
            month_label n (year ref) = month_label nd (year d)
            ↔ year d = year ref ∧ month d = i) as Hkey.
  { intros n i Hn Hi. split.
    - intros E. apply month_label_inj in E as [E1 E2];
        [|by eapply list_elem_of_lookup_2|done].
      split; [done|]. symmetry. by eapply Hname.
    - intros [-> <-]. f_equal. by eapply Hname. }
  destruct (1 <? month ref) eqn:Hjan.
  - assert (1 ≤ month ref - 1 ≤ 12) as Hprev by lia.
    destruct (month_name_valid (month ref - 1) Hprev) as (prev & Hprev' & Hprev_in).
    replace (month ref - 2) with (month ref - 1 - 1) by lia.
    rewrite py_index_months, Hprev' by done. simpl.
    eexists. split; [done|].
    rewrite !lookup_insert, grey_map_lookup by done.
    pose proof (Hkey _ _ Hprev' Hprev) as K1.
    pose proof (Hkey _ _ Hcur Href) as K2.
    destruct K1 as [K1a K1b], K2 as [K2a K2b].
    repeat case_decide; try done; exfalso; intuition lia.
  - eexists. split; [done|].
    rewrite !lookup_insert, grey_map_lookup by done.
    pose proof (Hkey _ _ Hcur Href) as K2.
    destruct K2 as [K2a K2b].
    repeat case_decide; try done; exfalso; intuition lia.
Qed.

(** C4 fails: seen from January 2019, December 2018 is not orange (it
    has no colour), and seen from September 2019, September 2018 is not
    grey. *)
Lemma color_discrete_map_other_years :
  (color_discrete_map (Date 2019 1 15) ≫= (.!! STRFTIME_B_Y (Date 2018 12 20))) = None
  ∧ (color_discrete_map (Date 2019 1 15) ≫= (.!! STRFTIME_B_Y (Date 2018 12 20)))
      ≠ Some "orange"%string
  ∧ (color_discrete_map CURRENT_DATE ≫= (.!! STRFTIME_B_Y (Date 2018 9 3))) = None
  ∧ (color_discrete_map CURRENT_DATE ≫= (.!! STRFTIME_B_Y (Date 2018 9 3)))
      ≠ Some "grey"%string.
Proof. split_and!; by vm_compute. Qed.

Lemma color_discrete_map_spec_witness :
  valid_month CURRENT_DATE ∧ valid_month (Date 2019 8 31)
  ∧ ∃ m, color_discrete_map CURRENT_DATE = Some m
         ∧ m !! "August 2019"%string = Some "orange"%string.
Proof.
  assert (valid_month CURRENT_DATE) as H1 by (unfold valid_month; simpl; lia).
  assert (valid_month (Date 2019 8 31)) as H2 by (unfold valid_month; simpl; lia).
  split; [exact H1|]. split; [exact H2|].
  destruct (color_discrete_map_spec CURRENT_DATE (Date 2019 8 31) H1 H2) as (m & Hm & Hl).
  exists m. split; [exact Hm|]. exact Hl.
Defined.

(** ** City filter *)

Lemma string_app_cons (a : ascii) (s t : string) :
  (String a s +:+ t = String a (s +:+ t))%string.
Proof. reflexivity. Qed.

Lemma sql_literal_plain (s tail : string) (c : ascii) :
  quote_free s = true → c ≠ quote →
  sql_literal (s +:+ String quote (String c tail)) = Some (s, String c tail).
Proof.
  intros Hs Hc.
  induction s as [|a s IH].
  - change (sql_literal (String quote (String c tail)) = Some (EmptyString, String c tail)).
    cbn [sql_literal].
    destruct (decide (quote = quote)); [|done]. by destruct (decide (c = quote)).
  - cbn [quote_free] in Hs.
    apply andb_prop in Hs as [Ha Hs]. apply negb_true_iff, bool_decide_eq_false in Ha.
    rewrite string_app_cons. cbn [sql_literal].
    destruct (decide (a = quote)); [done|]. by rewrite IH.
Qed.

Lemma city_literal_plain (s : string) : quote_free s = true → city_literal s = Some s.
Proof.
  intros Hs. unfold city_literal. by rewrite sql_literal_plain.
Qed.

(** With the synthetic entry the dataset comes back as it is. *)
Lemma filtered_sales_all (db : list sales_row) : filtered_sales db all_cities = Some db.
Proof. unfold filtered_sales. by rewrite decide_False by (by intros H; apply H). Qed.

(** With a city whose name has no quote character, exactly the rows of
    that city come back (equality of texts, character by character). *)
Lemma filtered_sales_plain (db : list sales_row) (c : string) :
  c ≠ all_cities → quote_free c = true →
  filtered_sales db c = Some (filter (λ r, City r = c) db).
Proof.
  intros Hc Hq. unfold filtered_sales.
  rewrite decide_True by done. by rewrite city_literal_plain.
Qed.

(** C5, at a city with an apostrophe: the dataset has a row of the city
    O'Brien, the selector offers it, and the filter statement built for
    it is not accepted, where the rows of that city were to come back. *)
Theorem filtered_sales_apostrophe :
  "O'Brien"%string ∈ get_cities obrien_rows
  ∧ filter (λ r, City r = "O'Brien"%string) obrien_rows = [obrien]
  ∧ sql_literal "O'Brien'" = Some ("O"%string, "Brien'"%string)
  ∧ filtered_sales obrien_rows "O'Brien" = None.
Proof.
  split_and!; try reflexivity.
  apply get_cities_elem. right. simpl. left.
Qed.

(** ** Grouped sales *)

Lemma Z_sum_cons (a : Z) (l : list Z) : Z_sum (a :: l) = a + Z_sum l.
Proof. reflexivity. Qed.

Lemma Z_sum_by_group {A} `{EqDecision K} (key : A → K) (f : A → Z)
    (l : list A) (ks : list K) :
  NoDup ks → (∀ x, x ∈ l → key x ∈ ks) →
  Z_sum ((λ k, Z_sum (f <$> filter (λ x, key x = k) l)) <$> ks) = Z_sum (f <$> l).
Proof.
  intros Hnd. revert l. induction ks as [|k ks IH]; intros l Hin.
  - destruct l as [|x l]; [done|].
    exfalso. eapply elem_of_nil. apply (Hin x). left.
  - pose proof (NoDup_cons_1_1 _ _ Hnd) as Hk.
    rewrite fmap_cons, Z_sum_cons.
    rewrite (list_fmap_ext _
      (λ k', Z_sum (f <$> filter (λ x, key x = k') (filter (λ x, key x ≠ k) l))) ks).
    + rewrite IH.
      * clear. induction l as [|x l IHl]; [done|].
        rewrite !filter_cons. case_decide; case_decide; try done;
          rewrite ?fmap_cons, ?Z_sum_cons; lia.
      * by eapply NoDup_cons_1_2.
      * intros x [Hx Hl]%list_elem_of_filter.
        by destruct (elem_of_cons ks (key x) k) as [[?|?] _]; [apply Hin| |].
    + intros i k' Hk'. f_equal. f_equal.
      rewrite list_filter_filter. apply list_filter_iff. intros x. split; [|tauto].
      intros ->. split; [done|]. intros ->. apply Hk. by eapply list_elem_of_lookup_2.
Qed.

Section Grouping.

Variable cast_float : string → option double.
Variable price_is_text : list (option string) → bool.

(** The cast accepts the price of a row: the field is empty, or its
    text without the commas is read as a number. *)
Lemma price_value_accepted (r : raw_row) :
  is_Some (price_value cast_float r)
  ↔ ∀ text, raw_Price r = Some text →
            is_Some (cast_float (REPLACE_char text ","%char)).
Proof.
  unfold price_value. destruct (raw_Price r) as [text|]; split.
  - intros [p Hp] ? [= <-].
    destruct (cast_float (REPLACE_char text ",")); [by eexists|done].
  - intros H. destruct (H text eq_refl) as [v ->]. by eexists.
  - done.
  - by eexists.
Qed.

Lemma price_value_price_of (r : raw_row) :
  is_Some (price_value cast_float r) →
  price_value cast_float r = Some (price_of cast_float r).
Proof.
  unfold price_value, price_of. destruct (raw_Price r) as [text|]; [|done].
  simpl. by destruct (cast_float (REPLACE_char text ",")); intros [??].
Qed.

Lemma priced_rows (rows : list raw_row) :
  Forall (λ r, is_Some (price_value cast_float r)) rows →
  mapM (λ r, p ← price_value cast_float r; Some (r, p)) rows
    = Some ((λ r, (r, price_of cast_float r)) <$> rows).
Proof.
  intros Hall. apply mapM_Some. induction Hall as [|r rows Hr _ IH]; simpl.
  - constructor.
  - constructor; [|done]. by rewrite (price_value_price_of r Hr).
Qed.

Lemma members_of_priced (k : group_key) (rows : list raw_row) :
  members_of k ((λ r, (r, price_of cast_float r)) <$> rows)
    = (λ r, (r, price_of cast_float r)) <$> filter (λ r, raw_key r = k) rows.
Proof.
  unfold members_of. induction rows as [|r rows IH]; [done|].
  rewrite fmap_cons, !filter_cons. simpl.
  case_decide; by rewrite IH.
Qed.

Lemma sales_key_group_row (k : group_key) (ms : list (raw_row * option double)) :
  sales_key (group_row k ms) = k.
Proof. by destruct k as [[??]?]. Qed.

(** What the query is when it binds and every price before the cutoff
    is accepted. *)
Lemma get_sales_data_value (current_date : date) (data : list raw_row) :
  data ≠ [] → price_is_text (raw_Price <$> data) = true →
  Forall (λ r, is_Some (price_value cast_float r)) (before current_date data) →
  get_sales_data cast_float price_is_text current_date data
    = Some ((λ k, group_row k ((λ r, (r, price_of cast_float r))
                                 <$> contributing current_date data k))
              <$> remove_dups (raw_key <$> before current_date data)).
Proof.
  intros Hne Htext Hall. unfold get_sales_data.
  rewrite bool_decide_eq_false_2, Htext by done. simpl.
  rewrite (priced_rows _ Hall). simpl.
  f_equal. rewrite <-list_fmap_compose.
  apply list_fmap_ext. intros _ k _. by rewrite members_of_priced.
Qed.

(** What the query is when it yields a table. *)
Lemma get_sales_data_Some (current_date : date) (data : list raw_row)
    (grouped : list sales_row) :
  get_sales_data cast_float price_is_text current_date data = Some grouped →
  data ≠ [] ∧ price_is_text (raw_Price <$> data) = true
  ∧ Forall (λ r, is_Some (price_value cast_float r)) (before current_date data)
  ∧ grouped
    = (λ k, group_row k ((λ r, (r, price_of cast_float r))
                           <$> contributing current_date data k))
        <$> remove_dups (raw_key <$> before current_date data).
Proof.
  intros Hg.
  assert (data ≠ []) as Hne.
  { intros ->. unfold get_sales_data in Hg. by rewrite bool_decide_eq_true_2 in Hg. }
  assert (price_is_text (raw_Price <$> data) = true) as Htext.
  { unfold get_sales_data in Hg. rewrite bool_decide_eq_false_2 in Hg by done.
    by destruct (price_is_text (raw_Price <$> data)). }
  assert (Forall (λ r, is_Some (price_value cast_float r)) (before current_date data))
    as Hall.
  { unfold get_sales_data in Hg.
    rewrite bool_decide_eq_false_2, Htext in Hg by done. simpl in Hg.
    destruct (mapM _ (before current_date data)) as [priced|] eqn:E; [|done].
    apply mapM_Some_1 in E. clear Hg.
    induction E as [|r rp rows priced Hr _ IH]; constructor; [|done].
    destruct (price_value cast_float r); by eauto. }
  split; [done|]. split; [done|]. split; [done|].
  rewrite (get_sales_data_value _ _ Hne Htext Hall) in Hg. by injection Hg.
Qed.

Lemma before_elem (current_date : date) (data : list raw_row) (r : raw_row) :
  r ∈ before current_date data
  ↔ r ∈ data ∧ date_ltb (raw_Order_Date r) current_date = true.
Proof. unfold before. rewrite list_elem_of_filter. tauto. Qed.


(** C1 (as the code has it): when the file has a row, its Price column
    is read as text, and every price before the cutoff that is not
    empty is accepted by the cast, the grouping query yields a table
    with exactly one row for each (order date, city, product type)
    found among the rows strictly before the cutoff.  The row's
    quantity is the sum of the quantities of those rows.  Its price is
    NULL when none of those rows has a price, and else it is a sum, in
    double precision, of their prices without the commas and cast,
    rounded to two decimals. *)
Theorem get_sales_data_spec (current_date : date) (data : list raw_row) :
  data ≠ [] →
  price_is_text (raw_Price <$> data) = true →
  (∀ r text, r ∈ data → date_ltb (raw_Order_Date r) current_date = true →
             raw_Price r = Some text →
             is_Some (cast_float (REPLACE_char text ","%char))) →
  ∃ grouped,
    get_sales_data cast_float price_is_text current_date data = Some grouped
    ∧ NoDup (sales_key <$> grouped)
    ∧ (∀ k, k ∈ sales_key <$> grouped
            ↔ ∃ r, r ∈ data ∧ date_ltb (raw_Order_Date r) current_date = true
                   ∧ raw_key r = k)
    ∧ (∀ s, s ∈ grouped →
         Quantity_Ordered s
           = Z_sum (raw_Quantity_Ordered <$> contributing current_date data (sales_key s))
         ∧ match Price s with
           | None =>
               parsed_prices cast_float (contributing current_date data (sales_key s)) = []
           | Some p =>
               parsed_prices cast_float (contributing current_date data (sales_key s)) ≠ []
               ∧ ∃ v, adds_up (parsed_prices cast_float
                                 (contributing current_date data (sales_key s))) v
                      ∧ p = ROUND2 v
           end)
    ∧ (∀ k r, r ∈ contributing current_date data k
              ↔ r ∈ data ∧ date_ltb (raw_Order_Date r) current_date = true
                ∧ raw_key r = k).
Proof.
  intros Hne Htext Hparse.
  assert (Forall (λ r, is_Some (price_value cast_float r)) (before current_date data))
    as Hall.
  { apply Forall_forall. intros r [??]%before_elem.
    apply price_value_accepted. intros text. by apply Hparse. }
  eexists. split; [by apply get_sales_data_value|].
  rewrite <-list_fmap_compose.
  rewrite (list_fmap_ext _ id (remove_dups (raw_key <$> before current_date data)))
    by (intros; apply sales_key_group_row).
  rewrite list_fmap_id. split_and!.
  - apply NoDup_remove_dups.
  - intros k. rewrite elem_of_remove_dups, list_elem_of_fmap. split.
    + intros (r & -> & [??]%before_elem). eauto.
    + intros (r & ? & ? & <-). exists r. split; [done|]. by apply before_elem.
  - intros s (k & -> & _)%list_elem_of_fmap.
    rewrite sales_key_group_row. simpl. rewrite <-!list_fmap_compose.
    split; [done|].
    pose proof (SUM_double_spec (price_of cast_float <$> contributing current_date data k))
      as Hsum.
    rewrite present_fmap in Hsum. fold (parsed_prices cast_float) in Hsum.
    change (snd ∘ (λ r, (r, price_of cast_float r))) with (price_of cast_float).
    destruct (SUM_double (price_of cast_float <$> contributing current_date data k)) as [v|];
      simpl; [|done].
    destruct Hsum as [Hsome Hv]. split; [done|]. by exists v.
  - intros k r. unfold contributing. rewrite list_elem_of_filter, before_elem. tauto.
Qed.

(** The rows of the grouped table are dated before the cutoff. *)
Lemma grouped_row_before (current_date : date) (data : list raw_row)
    (grouped : list sales_row) (s : sales_row) :
  get_sales_data cast_float price_is_text current_date data = Some grouped →
  s ∈ grouped →
  date_ltb (Order_Date s) current_date = true ∧ Order_Day s = day (Order_Date s).
Proof.
  intros (_ & _ & _ & ->)%get_sales_data_Some (k & -> & Hk)%list_elem_of_fmap.
  apply elem_of_remove_dups, list_elem_of_fmap in Hk as (r & -> & Hr).
  by apply list_elem_of_filter in Hr as [Hdate _].
Qed.

Lemma grouped_row_origin (current_date : date)
    (data : list raw_row) (grouped : list sales_row) (s : sales_row) :
  get_sales_data cast_float price_is_text current_date data = Some grouped →
  s ∈ grouped →
  ∃ r, r ∈ data
       ∧ Order_Month s = STRFTIME_B_Y (raw_Order_Date r)
       ∧ MonthYearSort s = STRFTIME_Ym_INT (raw_Order_Date r).
Proof.
  intros (_ & _ & _ & ->)%get_sales_data_Some (k & -> & Hk)%list_elem_of_fmap.
  apply elem_of_remove_dups, list_elem_of_fmap in Hk as (r & -> & Hr).
  apply list_elem_of_filter in Hr as [_ Hr]. by exists r.
Qed.

(** X2: Every row of the grouped table is dated strictly before the cutoff,
    comes from a row of the file with its date, city and product type,
    and its day, month label and sort key are those of its date. *)
Theorem get_sales_data_rows (current_date : date) (data : list raw_row)
    (grouped : list sales_row) (s : sales_row) :
  get_sales_data cast_float price_is_text current_date data = Some grouped →
  s ∈ grouped →
  date_ltb (Order_Date s) current_date = true
  ∧ Order_Day s = day (Order_Date s)
  ∧ Order_Month s = STRFTIME_B_Y (Order_Date s)
  ∧ MonthYearSort s = year (Order_Date s) * 100 + month (Order_Date s)
  ∧ ∃ r, r ∈ data ∧ date_ltb (raw_Order_Date r) current_date = true
         ∧ raw_key r = sales_key s.
Proof.
  intros (_ & _ & _ & ->)%get_sales_data_Some (k & -> & Hk)%list_elem_of_fmap.
  apply elem_of_remove_dups, list_elem_of_fmap in Hk as (r & -> & Hr).
  apply list_elem_of_filter in Hr as [Hdate Hr].
  destruct r as [d c p q t]. simpl in *. split_and!; try done.
  by exists (RawRow d c p q t).
Qed.

(** X3: No unit is lost or counted twice by the grouping: the quantities of
    the grouped table add up to the quantities of the rows before the
    cutoff. *)
Theorem get_sales_data_quantity_total (current_date : date) (data : list raw_row)
    (grouped : list sales_row) :
  get_sales_data cast_float price_is_text current_date data = Some grouped →
  Z_sum (Quantity_Ordered <$> grouped)
    = Z_sum (raw_Quantity_Ordered <$> before current_date data).
Proof.
  intros (_ & _ & _ & ->)%get_sales_data_Some.
  rewrite <-list_fmap_compose.
  rewrite <-(Z_sum_by_group raw_key raw_Quantity_Ordered (before current_date data)
               (remove_dups (raw_key <$> before current_date data))).
  - f_equal. apply list_fmap_ext. intros _ k _. simpl.
    by rewrite <-list_fmap_compose.
  - apply NoDup_remove_dups.
  - intros r Hr. apply elem_of_remove_dups, list_elem_of_fmap. eauto.
Qed.

End Grouping.



(** C1 fails on the grand total: of two sales of one day at 1,024.125
    and 0.125, each a group of its own, the grouped prices are 1024.13
    and 0.13, which add up to 1024.2600000000002 in double precision
    (and to more than 1024.26 as real numbers), while the parsed prices
    add up to 1024.25. *)
Lemma get_sales_data_total_rounded :
  ∃ grouped,
    get_sales_data sample_cast sample_price_is_text CURRENT_DATE eighths_rows = Some grouped
    ∧ Price <$> grouped
        = [Some (dbl 4504171373416940 (-42)); Some (dbl 4683743612465316 (-55))]
    ∧ parsed_prices sample_cast (before CURRENT_DATE eighths_rows)
        = [dbl 8193 (-3); dbl 1 (-3)]
    ∧ sum_double (parsed_prices sample_cast (before CURRENT_DATE eighths_rows))
        = dbl 4097 (-2)
    ∧ sum_double (present (Price <$> grouped)) = dbl 4504743119463384 (-42)
    ∧ sum_double (present (Price <$> grouped))
        ≠ sum_double (parsed_prices sample_cast (before CURRENT_DATE eighths_rows))
    ∧ sum_double (reverse (present (Price <$> grouped)))
        ≠ sum_double (reverse (parsed_prices sample_cast (before CURRENT_DATE eighths_rows)))
    ∧ ¬ (exact_total (present (Price <$> grouped))
         == exact_total (parsed_prices sample_cast (before CURRENT_DATE eighths_rows)))%Q.
Proof.
  eexists. split; [by vm_compute|].
  split; [by vm_compute|]. split; [by vm_compute|]. split; [by vm_compute|].
  split; [by vm_compute|]. split_and!.
  - by vm_compute.
  - by vm_compute.
  - intros E. apply Qeq_bool_iff in E. vm_compute in E. discriminate E.
Qed.

Lemma get_sales_data_spec_witness :
  ∃ grouped,
    get_sales_data sample_cast sample_price_is_text CURRENT_DATE scenario_rows = Some grouped
    ∧ sales_key <$> grouped
        = [(Date 2019 1 5, "NYC", "A"); (Date 2019 1 6, "NYC", "A")]%string
    ∧ Quantity_Ordered <$> grouped = [2; 4]
    ∧ Price <$> grouped = [Some (dbl 1000 0); Some (dbl 2083 (-2))]
    ∧ NoDup (sales_key <$> grouped).
Proof.
  assert (scenario_rows ≠ []) as Hne by done.
  assert (sample_price_is_text (raw_Price <$> scenario_rows) = true) as Htext
    by reflexivity.
  assert (∀ r text, r ∈ scenario_rows →
            date_ltb (raw_Order_Date r) CURRENT_DATE = true →
            raw_Price r = Some text →
            is_Some (sample_cast (REPLACE_char text ","%char))) as Hparse.
  { intros r text Hr Hdate Htxt. unfold scenario_rows in Hr.
    repeat (apply elem_of_cons in Hr as [->|Hr];
            [first [discriminate Hdate
                   |injection Htxt as <-; by vm_compute; eexists]|]).
    by apply elem_of_nil in Hr. }
  destruct (get_sales_data_spec sample_cast sample_price_is_text CURRENT_DATE
              scenario_rows Hne Htext Hparse)
    as (grouped & Hg & Hnd & _).
  exists grouped. split; [exact Hg|].
  assert (Some grouped
          = get_sales_data sample_cast sample_price_is_text CURRENT_DATE scenario_rows)
    as E by done.
  vm_compute in E. injection E as ->.
  split; [reflexivity|]. split; [reflexivity|]. split; [by vm_compute|].
  apply (bool_decide_unpack _). by vm_compute.
Defined.

Lemma get_sales_data_rows_witness :
  Forall (λ s, date_ltb (Order_Date s) CURRENT_DATE = true
               ∧ Order_Month s = STRFTIME_B_Y (Order_Date s))
    scenario_grouped.
Proof.
  apply Forall_forall. intros s Hs.
  destruct (get_sales_data_rows sample_cast sample_price_is_text CURRENT_DATE scenario_rows
              scenario_grouped s eq_refl Hs) as (H1 & _ & H2 & _).
  by split.
Defined.

Lemma get_sales_data_quantity_total_witness :
  Z_sum (Quantity_Ordered <$> scenario_grouped) = 6.
Proof.
  rewrite (get_sales_data_quantity_total sample_cast sample_price_is_text CURRENT_DATE
             scenario_rows scenario_grouped eq_refl).
  reflexivity.
Defined.

(** ** From the selector to the KPIs *)

Lemma filtered_sales_rows (db fs : list sales_row) (c : string) :
  filtered_sales db c = Some fs →
  fs = db ∨ ∃ lit, fs = filter (λ r, City r = lit) db.
Proof.
  unfold filtered_sales. case_decide; [|intros [= ->]; by left].
  destruct (city_literal c) as [lit|]; [|done]. intros [= <-]. eauto.
Qed.

Lemma filtered_sales_elem (db fs : list sales_row) (c : string) (r : sales_row) :
  filtered_sales db c = Some fs → r ∈ fs → r ∈ db.
Proof.
  intros [->|[lit ->]]%filtered_sales_rows; [done|].
  by intros [_ ?]%list_elem_of_filter.
Qed.

(** X7: The category orders handed to the histogram cover the filtered
    table, whatever city is selected: each of its product types is in
    the product type list and each of its months in the month list, and
    neither list repeats an entry. *)
Theorem category_orders_cover (db fs : list sales_row) (c : string) :
  filtered_sales db c = Some fs →
  NoDup (get_product_types db) ∧ NoDup (get_months db)
  ∧ ∀ r, r ∈ fs →
         Product_Type r ∈ get_product_types db
         ∧ (Order_Month r, MonthYearSort r) ∈ get_months db.
Proof.
  intros Hfs. split_and!.
  - apply NoDup_remove_dups.
  - unfold get_months. rewrite merge_sort_Permutation. apply NoDup_remove_dups.
  - intros r Hr. pose proof (filtered_sales_elem _ _ _ _ Hfs Hr) as Hdb. split.
    + apply elem_of_remove_dups, list_elem_of_fmap. eauto.
    + unfold get_months.
      rewrite merge_sort_Permutation, elem_of_remove_dups, list_elem_of_fmap. eauto.
Qed.

(** X9: In the dashboard the month-to-date table stops the day before the
    reference date: its rows come from the grouped table, lie in the
    month of the reference date and have an earlier day. *)
Theorem mtd_before_reference_day (cast_float : string → option double)
    (price_is_text : list (option string) → bool)
    (d : date) (data : list raw_row) (db fs : list sales_row) (c : string)
    (s : sales_row) :
  get_sales_data cast_float price_is_text d data = Some db →
  filtered_sales db c = Some fs →
  s ∈ mtd_filtered_sales fs d →
  s ∈ db
  ∧ year (Order_Date s) = year d ∧ month (Order_Date s) = month d
  ∧ day (Order_Date s) < day d
  ∧ Order_Day s < day d.
Proof.
  intros Hdb Hfs Hs.
  rewrite mtd_filtered_sales_filter in Hs.
  apply list_elem_of_filter in Hs as [[Hy Hm] Hs].
  pose proof (filtered_sales_elem _ _ _ _ Hfs Hs) as Hin.
  destruct (grouped_row_before _ _ _ _ _ _ Hdb Hin) as [Hlt Hday].
  assert (day (Order_Date s) < day d) as Hd.
  { unfold date_ltb in Hlt. rewrite Hy, Hm in Hlt.
    rewrite Z.ltb_irrefl, !Z.eqb_refl in Hlt. simpl in Hlt. lia. }
  rewrite Hday. done.
Qed.

Lemma category_orders_cover_witness :
  NoDup (get_product_types january_rows) ∧ NoDup (get_months january_rows).
Proof.
  destruct (category_orders_cover january_rows
              (filter (λ r, City r = "NYC"%string) january_rows) "NYC" eq_refl)
    as (H1 & H2 & _).
  by split.
Defined.

Lemma mtd_before_reference_day_witness :
  mtd_filtered_sales scenario_jan6 (Date 2019 1 6) ≠ []
  ∧ Forall (λ s, Order_Day s < 6) (mtd_filtered_sales scenario_jan6 (Date 2019 1 6)).
Proof.
  split; [by vm_compute|].
  apply Forall_forall. intros s Hs.
  apply (mtd_before_reference_day sample_cast sample_price_is_text (Date 2019 1 6)
           scenario_rows scenario_jan6 scenario_jan6 all_cities s eq_refl
           (filtered_sales_all scenario_jan6) Hs).
Defined.

(** ** The cumulative line *)

Lemma date_ltb_spec (a b : date) :
  date_ltb a b = true
  ↔ year a < year b
    ∨ (year a = year b
       ∧ (month a < month b ∨ (month a = month b ∧ day a < day b))).
Proof.
  unfold date_ltb.
  rewrite !orb_true_iff, !andb_true_iff, !orb_true_iff, !andb_true_iff,
    !Z.ltb_lt, !Z.eqb_eq.
  tauto.
Qed.

Lemma date_ltb_false (a b : date) :
  date_ltb a b = false
  ↔ ¬ (year a < year b
       ∨ (year a = year b
          ∧ (month a < month b ∨ (month a = month b ∧ day a < day b)))).
Proof. rewrite <-date_ltb_spec. by destruct (date_ltb a b). Qed.

Global Instance by_order_date_total : Total by_order_date.
Proof.
  intros a b. unfold by_order_date, date_leb.
  rewrite !negb_true_iff, !date_ltb_false. lia.
Qed.

Global Instance by_order_date_trans : Transitive by_order_date.
Proof.
  intros a b c. unfold by_order_date, date_leb.
  rewrite !negb_true_iff, !date_ltb_false. lia.
Qed.

(** X10: The cumulative query gives one row for each row it reads, in the
    order of the order dates: it is the select list applied to a
    rearrangement of the table in which no row comes before a row of an
    earlier date. *)
Theorem get_cumulative_sales_order (fs : list sales_row) :
  length (get_cumulative_sales fs) = length fs
  ∧ ∃ l, l ≡ₚ fs
         ∧ StronglySorted (λ a b, date_ltb (Order_Date b) (Order_Date a) = false) l
         ∧ get_cumulative_sales fs = cumulative_of fs <$> l.
Proof.
  unfold get_cumulative_sales. split.
  - by rewrite length_fmap, merge_sort_Permutation.
  - exists (merge_sort by_order_date fs).
    split_and!; [apply merge_sort_Permutation| |done].
    pose proof (StronglySorted_merge_sort by_order_date fs) as Hs.
    induction Hs as [|a l _ IH Hall]; constructor; [done|].
    eapply Forall_impl; [exact Hall|].
    intros b Hab. unfold by_order_date, date_leb in Hab. by apply negb_true_iff in Hab.
Qed.

(** ** The month list of the dashboard *)

Lemma get_months_elem (db : list sales_row) (p : string * Z) :
  p ∈ get_months db ↔ ∃ r, r ∈ db ∧ p = (Order_Month r, MonthYearSort r).
Proof.
  unfold get_months.
  rewrite merge_sort_Permutation, elem_of_remove_dups, list_elem_of_fmap.
  split; intros (r & ? & ?); eauto.
Qed.

Lemma label_same_month (a b : date) :
  valid_month a → valid_month b →
  STRFTIME_B_Y a = STRFTIME_B_Y b ↔ year a = year b ∧ month a = month b.
Proof.
  unfold valid_month, STRFTIME_B_Y. intros Ha Hb.
  destruct (month_name_valid (month a) Ha) as (na & Hna & Hna_in).
  destruct (month_name_valid (month b) Hb) as (nb & Hnb & Hnb_in).
  rewrite Hna, Hnb. simpl. split.
  - intros [-> Hy]%month_label_inj; [|done..]. split; [done|].
    assert (Z.to_nat (month a - 1) = Z.to_nat (month b - 1))
      by (eapply NoDup_lookup; eauto using months_list_NoDup).
    lia.
  - intros [Hy Hm]. rewrite Hm in Hna. congruence.
Qed.

(** X12: Among real calendar months, the sort key and the label name the
    same month: two dates have the same key exactly when they have the
    same label, and the key grows with the month. *)
Theorem sort_key_and_label (a b : date) :
  valid_month a → valid_month b →
  (STRFTIME_Ym_INT a = STRFTIME_Ym_INT b ↔ STRFTIME_B_Y a = STRFTIME_B_Y b)
  ∧ (STRFTIME_Ym_INT a < STRFTIME_Ym_INT b
     ↔ year a < year b ∨ (year a = year b ∧ month a < month b)).
Proof.
  intros Ha Hb. rewrite (label_same_month a b Ha Hb).
  unfold valid_month, STRFTIME_Ym_INT in *. split; lia.
Qed.

Lemma strictly_sorted_by {A} (f : A → Z) (l : list A) :
  StronglySorted (λ a b, f a ≤ f b) l → NoDup (f <$> l) →
  StronglySorted (λ a b, f a < f b) l.
Proof.
  induction 1 as [|a l _ IH Hall]; intros Hnd; [constructor|].
  rewrite fmap_cons in Hnd.
  pose proof (NoDup_cons_1_1 _ _ Hnd) as Ha.
  constructor; [apply IH; by eapply NoDup_cons_1_2|].
  apply Forall_forall. intros b Hb. rewrite Forall_forall in Hall.
  specialize (Hall b Hb).
  assert (f a ≠ f b); [|lia].
  intros E. apply Ha. rewrite E. by apply list_elem_of_fmap_2.
Qed.

(** X13: When the file only holds real calendar months, the month list of
    the grouped table is in calendar order: its sort keys grow strictly
    from one entry to the next, and no label occurs twice. *)
Theorem get_months_calendar_order (cast_float : string → option double)
    (price_is_text : list (option string) → bool)
    (current_date : date) (data : list raw_row) (db : list sales_row) :
  get_sales_data cast_float price_is_text current_date data = Some db →
  (∀ r, r ∈ data → valid_month (raw_Order_Date r)) →
  StronglySorted (λ a b : string * Z, a.2 < b.2) (get_months db)
  ∧ NoDup (fst <$> get_months db).
Proof.
  intros Hdb Hvalid.
  assert (∀ p, p ∈ get_months db →
            ∃ dt, valid_month dt ∧ p = (STRFTIME_B_Y dt, STRFTIME_Ym_INT dt)) as Hshape.
  { intros p (s & Hs & ->)%get_months_elem.
    destruct (grouped_row_origin _ _ _ _ _ _ Hdb Hs) as (r & Hr & -> & ->).
    exists (raw_Order_Date r). split; [by apply Hvalid|done]. }
  assert (NoDup (get_months db)) as Hnd.
  { unfold get_months. rewrite merge_sort_Permutation. apply NoDup_remove_dups. }
  split.
  - apply (strictly_sorted_by snd).
    + apply (StronglySorted_merge_sort by_sort_key).
    + apply NoDup_fmap_2_strong; [|done].
      intros p q (dp & Hdp & ->)%Hshape (dq & Hdq & ->)%Hshape E. simpl in E.
      f_equal; [|done]. apply label_same_month; [done..|].
      unfold valid_month, STRFTIME_Ym_INT in *. lia.
  - apply NoDup_fmap_2_strong; [|done].
    intros p q (dp & Hdp & ->)%Hshape (dq & Hdq & ->)%Hshape E. simpl in E.
    f_equal; [done|]. apply label_same_month in E; [|done..].
    unfold STRFTIME_Ym_INT. lia.
Qed.

Lemma sort_key_and_label_witness :
  STRFTIME_Ym_INT (Date 2018 12 31) < STRFTIME_Ym_INT (Date 2019 1 1).
Proof.
  apply (sort_key_and_label (Date 2018 12 31) (Date 2019 1 1)).
  - unfold valid_month. simpl. lia.
  - unfold valid_month. simpl. lia.
  - left. simpl. lia.
Defined.

Lemma get_months_calendar_order_witness :
  NoDup (fst <$> get_months scenario_grouped).
Proof.
  apply (get_months_calendar_order sample_cast sample_price_is_text CURRENT_DATE
           scenario_rows scenario_grouped eq_refl).
  intros r Hr. unfold scenario_rows in Hr. unfold valid_month.
  repeat (apply elem_of_cons in Hr as [->|Hr]; [simpl; lia|]).
  by apply elem_of_nil in Hr.
Defined.

(** ** Facet titles *)

Lemma py_split_cons (s : string) (c : ascii) : ∃ p ps, py_split s c = p :: ps.
Proof.
  induction s as [|a s (p & ps & IH)]; simpl; [by eauto|].
  case_decide; [by eauto|]. rewrite IH. eauto.
Qed.

Lemma py_index_last {A} (l : list A) (x : A) : py_index (l ++ [x]) (-1) = Some x.
Proof.
  unfold py_index. rewrite length_app.
  change (length [x]) with 1%nat.
  change ((0 <=? -1) && (-1 <? Z.of_nat (length l + 1))) with false.
  rewrite (proj2 (Z.leb_le (- Z.of_nat (length l + 1)) (-1))) by lia.
  change (true && (-1 <? 0)) with true. cbv iota.
  replace (Z.to_nat (Z.of_nat (length l + 1) + -1)) with (length l) by lia.
  by rewrite list_lookup_middle.
Qed.

Lemma py_split_free (s : string) (c : ascii) :
  char_free c s = true → py_split s c = [s].
Proof.
  induction s as [|a s IH]; [done|]. simpl.
  intros [Ha Hs]%andb_prop. apply negb_true_iff, bool_decide_eq_false in Ha.
  rewrite decide_False by done. by rewrite IH.
Qed.

Lemma py_split_app (k v : string) (c : ascii) :
  char_free c v = true →
  ∃ p ps, py_split (k +:+ String c v) c = p :: ps ++ [v].
Proof.
  intros Hv. induction k as [|a k (p & ps & IH)].
  - exists EmptyString, [].
    change (py_split (String c v) c = [EmptyString; v]).
    cbn [py_split]. rewrite decide_True by done. by rewrite py_split_free.
  - rewrite string_app_cons. cbn [py_split]. rewrite IH. case_decide.
    + by exists EmptyString, (p :: ps).
    + by exists (String a p), ps.
Qed.

(** X14: A facet title never fails to be computed, a text without an equals
    sign is left as it is, and from a text of the form key=value whose
    value has no equals sign only the value is kept. *)
Theorem annotation_text_value (k v : string) :
  char_free "="%char v = true →
  annotation_text v = Some v
  ∧ annotation_text (k +:+ String "="%char v) = Some v
  ∧ ∀ text, is_Some (annotation_text text).
Proof.
  intros Hv. unfold annotation_text. split_and!.
  - rewrite py_split_free by done. reflexivity.
  - destruct (py_split_app k v "="%char Hv) as (p & ps & ->).
    apply (py_index_last (p :: ps)).
  - intros text. destruct (py_split_cons text "="%char) as (p & ps & ->).
    destruct (exists_last (l := p :: ps)) as (l' & x & ->); [done|].
    rewrite py_index_last. by eexists.
Qed.

Lemma annotation_text_value_witness :
  annotation_text "Product Type=Phone" = Some "Phone"%string.
Proof.
  apply (annotation_text_value "Product Type" "Phone" eq_refl).
Defined.

(** ** Thousands separators *)

Lemma REPLACE_char_app (s t : string) (c : ascii) :
  REPLACE_char (s +:+ t) c = REPLACE_char s c +:+ REPLACE_char t c.
Proof.
  induction s as [|a s IH]; [done|].
  rewrite string_app_cons. cbn [REPLACE_char]. case_decide; [done|].
  by rewrite string_app_cons, IH.
Qed.

(** X15: Removing the separator keeps every other character, in order; so
    it acts piece by piece, a separator put anywhere in a text leaves
    the result as it was, and doing it twice changes nothing. *)
Theorem REPLACE_char_filter (s : string) (c : ascii) :
  String.list_ascii_of_string (REPLACE_char s c)
    = filter (λ a, a ≠ c) (String.list_ascii_of_string s)
  ∧ (∀ t, REPLACE_char (s +:+ t) c = REPLACE_char s c +:+ REPLACE_char t c)
  ∧ (∀ t, REPLACE_char (s +:+ String c t) c = REPLACE_char (s +:+ t) c)
  ∧ REPLACE_char (REPLACE_char s c) c = REPLACE_char s c.
Proof.
  split_and!.
  - induction s as [|a s IH]; [done|]. cbn [REPLACE_char String.list_ascii_of_string].
    rewrite filter_cons. destruct (decide (a = c)) as [->|Hne].
    + by rewrite decide_False by (by intros ?).
    + rewrite decide_True by done. cbn [String.list_ascii_of_string]. by rewrite IH.
  - intros t. apply REPLACE_char_app.
  - intros t. rewrite !REPLACE_char_app. cbn [REPLACE_char]. by rewrite decide_True.
  - induction s as [|a s IH]; [done|]. cbn [REPLACE_char].
    case_decide; [done|]. cbn [REPLACE_char]. rewrite decide_False by done. by rewrite IH.
Qed.

(** ** The entries of the colour map *)

Lemma grey_map_entry (y : Z) (k v : string) :
  grey_map y !! k = Some v →
  v = "grey"%string ∧ ∃ n, n ∈ months_list ∧ k = month_label n y.
Proof.
  unfold grey_map. intros H%elem_of_list_to_map_2.
  apply list_elem_of_fmap in H as (n & [= -> ->] & Hn). eauto.
Qed.

Lemma grey_map_size (y : Z) : size (grey_map y) = 12%nat.
Proof.
  unfold grey_map. rewrite map_size_list_to_map; [done|].
  rewrite <-list_fmap_compose. apply NoDup_fmap_2_strong; [|apply months_list_NoDup].
  intros n1 n2 H1 H2 E. simpl in E. by apply month_label_inj in E as [? _].
Qed.

Local Ltac solve_entry :=
  try done; try congruence;
  try (by match goal with
          | Hx : grey_map _ !! _ = Some _ |- _ => apply grey_map_entry in Hx as [? _]
          end);
  try (match goal with Hx : _ ∧ _ |- _ => destruct Hx end; done || congruence || lia);
  try (split; [lia|done]).

(** X17: For a reference date the colour map has twelve entries, all for
    months of the reference year and all grey, red or orange; the one
    red entry is the reference month, and the one orange entry, which
    exists in every month but January, is the month before it. *)
Theorem color_discrete_map_entries (ref : date) :
  valid_month ref →
  ∃ m, color_discrete_map ref = Some m
       ∧ size m = 12%nat
       ∧ (∀ k, m !! k = Some "red"%string ↔ k = STRFTIME_B_Y ref)
       ∧ (∀ k, m !! k = Some "orange"%string
               ↔ 1 < month ref
                 ∧ k = STRFTIME_B_Y (Date (year ref) (month ref - 1) 1))
       ∧ (∀ k v, m !! k = Some v →
                 v ∈ ["grey"; "red"; "orange"]%string
                 ∧ ∃ d, valid_month d ∧ year d = year ref ∧ k = STRFTIME_B_Y d).
Proof.
  unfold valid_month. intros Href.
  destruct (month_name_valid (month ref) Href) as (cur & Hcur & Hcur_in).
  assert (∀ i n, 1 ≤ i ≤ 12 → months_list !! Z.to_nat (i - 1) = Some n →
            month_label n (year ref) = STRFTIME_B_Y (Date (year ref) i 1)) as Hlab.
  { intros i n Hi Hn. unfold STRFTIME_B_Y. simpl. by rewrite Hn. }
  assert (∀ n, n ∈ months_list →
            ∃ d, valid_month d ∧ year d = year ref
                 ∧ month_label n (year ref) = STRFTIME_B_Y d) as Hkey.
  { intros n (i & Hi)%list_elem_of_lookup_1.
    pose proof (lookup_lt_Some _ _ _ Hi) as Hlt. simpl in Hlt.
    exists (Date (year ref) (Z.of_nat i + 1) 1). unfold valid_month. simpl.
    split; [lia|]. split; [done|]. apply Hlab; [lia|].
    by replace (Z.to_nat (Z.of_nat i + 1 - 1)) with i by lia. }
  assert (STRFTIME_B_Y ref = month_label cur (year ref)) as Hcurlab.
  { unfold STRFTIME_B_Y. by rewrite Hcur. }
  assert (is_Some (grey_map (year ref) !! month_label cur (year ref))) as Hin_cur.
  { rewrite grey_map_lookup by done. rewrite decide_True by done. by eexists. }
  unfold color_discrete_map. rewrite py_index_months, Hcur by done. simpl.
  destruct (1 <? month ref) eqn:Hjan.
  - assert (1 ≤ month ref - 1 ≤ 12) as Hprev by lia.
    destruct (month_name_valid (month ref - 1) Hprev) as (prev & Hprev' & Hprev_in).
    replace (month ref - 2) with (month ref - 1 - 1) by lia.
    rewrite py_index_months, Hprev' by done. simpl.
    assert (month_label prev (year ref) ≠ month_label cur (year ref)) as Hne.
    { intros [-> _]%month_label_inj; [|done..].
      assert (Z.to_nat (month ref - 1 - 1) = Z.to_nat (month ref - 1))
        by (eapply NoDup_lookup; eauto using months_list_NoDup).
      lia. }
    rewrite <-(Hlab _ _ Hprev Hprev'), Hcurlab.
    eexists. split; [done|]. split_and!.
    + rewrite map_size_insert_Some.
      2:{ rewrite lookup_insert_ne by (intros E; by apply Hne).
          rewrite grey_map_lookup, decide_True by done. by eexists. }
      rewrite map_size_insert_Some by done. apply grey_map_size.
    + intros k. rewrite !lookup_insert.
      repeat case_decide; subst; split; intros Hx; solve_entry.
    + intros k. rewrite !lookup_insert.
      repeat case_decide; subst; split; intros Hx; solve_entry.
    + intros k v. rewrite !lookup_insert. repeat case_decide; subst.
      * intros [= <-]. split; [repeat constructor|]. by apply Hkey.
      * intros [= <-]. split; [repeat constructor|]. by apply Hkey.
      * intros (-> & n & Hn & ->)%grey_map_entry. split; [repeat constructor|]. by apply Hkey.
  - rewrite Hcurlab.
    eexists. split; [done|]. split_and!.
    + rewrite map_size_insert_Some by done. apply grey_map_size.
    + intros k. rewrite !lookup_insert.
      repeat case_decide; subst; split; intros Hx; solve_entry.
    + intros k. rewrite !lookup_insert.
      repeat case_decide; subst; split; intros Hx; solve_entry.
    + intros k v. rewrite !lookup_insert. repeat case_decide; subst.
      * intros [= <-]. split; [repeat constructor|]. by apply Hkey.
      * intros (-> & n & Hn & ->)%grey_map_entry. split; [repeat constructor|]. by apply Hkey.
Qed.

Lemma color_discrete_map_entries_witness :
  ∃ m, color_discrete_map (Date 2019 1 15) = Some m ∧ size m = 12%nat.
Proof.
  destruct (color_discrete_map_entries (Date 2019 1 15)) as (m & H1 & H2 & _).
  - unfold valid_month. simpl. lia.
  - by exists m.
Defined.

